(** * GhDriver: the GitHub storage driver of the gaia hub

    A shallow embedding of [hub/src/server/drivers/GhDriver.js] and the
    properties of its configuration check, path validation, read URL,
    write and listing operations. *)

From Stdlib Require Import ZArith String Ascii List Bool Lia.
From stdpp Require Import base option gmap strings.
Import ListNotations.

Local Open Scope string_scope.
Local Open Scope Z_scope.

(** ** JavaScript strings *)

Module Js.

(** The double-quote character, written by its code. *)
Definition dquote : string := String "034"%char EmptyString.

(** [hay] has [needle] as a contiguous substring. *)
Definition includes (hay needle : string) : Prop :=
  exists pre post : string, hay = pre ++ needle ++ post.

(** [String.prototype.indexOf]: the index of the first occurrence of
    [needle] in [hay], or [-1] when there is none.  [k] is the index of
    the first character of [hay] in the string the search started on. *)
Fixpoint indexOf_from (needle hay : string) (k : Z) : Z :=
  if String.prefix needle hay then k
  else match hay with
       | EmptyString => -1
       | String _ rest => indexOf_from needle rest (k + 1)
       end.

Definition indexOf (hay needle : string) : Z := indexOf_from needle hay 0.

(** Values thrown or used as rejection reasons: an error object with the
    name of its class and its message. *)
Record Error := mkError { name : string; message : string }.

(** [Error.prototype.toString], as a template literal applies it. *)
Definition toString (e : Error) : string :=
  if String.eqb (name e) "" then message e
  else if String.eqb (message e) "" then name e
  else name e ++ ": " ++ message e.

(** A template literal renders an absent ([undefined]) string as the
    word "undefined". *)
Definition render (v : option string) : string :=
  match v with
  | Some s => s
  | None => "undefined"
  end.

(** [!s || s === ''] for an optional string: absent or empty. *)
Definition falsy (v : option string) : bool :=
  match v with
  | Some s => String.eqb s ""
  | None => true
  end.

End Js.

(** ** Logging

    The driver logs through winston; the log is kept as the list of entries
    written, oldest first. *)

Inductive Level := Info | Debug | Err.

Record LogEntry := mkLog { level : Level; text : string }.

(** ** Configuration and driver instance *)

(** [GH_CONFIG_TYPE]: [ghConfig] is an object of optional string
    properties, kept as a finite map from property name to value. *)
Record Config := mkConfig {
  ghConfig : option (gmap string string);
  cfg_bucket : string
}.

(** The octokit client as the constructor sets it up: the options it was
    created with and the credentials passed to [authenticate]. *)
Record Octokit := mkOctokit {
  oc_headers : list (string * string);
  oc_baseUrl : option string;
  oc_auth : option (string * string)
}.

(** The fields of a [GhDriver].  [bucket] is declared by the class but is
    a plain property: it holds a value only once something assigns it. *)
Record GhDriver := mkDriver {
  oc : Octokit;
  bucket : option string;
  owner : string;
  repo : string;
  path : string;
  ref : string
}.

(** The error thrown by the [default] case of [switch (authtype)]. *)
Definition unsupported_auth : Js.Error :=
  Js.mkError "Error"
    ("Using an unsupported auth type. Only " ++ Js.dquote ++ "token"
     ++ Js.dquote ++ " or " ++ Js.dquote ++ "oauth" ++ Js.dquote
     ++ " are supported").

(** The [switch (authtype)] of the constructor: the error it throws, if
    any.  The cases compare with strict equality, so an absent [authtype]
    takes the [default] case. *)
Definition check_auth (authtype token : option string) : option Js.Error :=
  match authtype with
  | Some a =>
      if String.eqb a "token" then
        if Js.falsy token
        then Some (Js.mkError "Error" "Using token authentication but no token supplied")
        else None
      else if String.eqb a "oauth" then
        if Js.falsy token
        then Some (Js.mkError "Error" "Using oauth authentication but no token supplied")
        else None
      else Some unsupported_auth
  | None => Some unsupported_auth
  end.

(** [this.path] and the note logged when the default is taken. *)
Definition default_path (p : option string) : list LogEntry * string :=
  if Js.falsy p
  then ([mkLog Info "setting path to / as its not supplied in GitHub driver configuration"],
        "/")
  else ([], Js.render p).

(** [this.ref] and the note logged when the default is taken. *)
Definition default_ref (r : option string) : list LogEntry * string :=
  if Js.falsy r
  then ([mkLog Info ("setting ref to " ++ Js.dquote ++ "master" ++ Js.dquote
                     ++ " as its not supplied in GitHub driver configuration")],
        "master")
  else ([], Js.render r).

(** [new GhDriver(config)]: the entries logged, and either the error
    thrown or the instance. *)
Definition constructor (config : Config) : list LogEntry * (Js.Error + GhDriver) :=
  match ghConfig config with
  | None => ([], inl (Js.mkError "Error" "Configuration is missing for GitHub driver"))
  | Some gh =>
      if Nat.eqb (size gh) 0
      then ([], inl (Js.mkError "Error" "Configuration is missing for GitHub driver"))
      else
        let authtype := gh !! "authtype" in
        let token := gh !! "token" in
        let baseurl := gh !! "baseurl" in
        match check_auth authtype token with
        | Some e => ([], inl e)
        | None =>
            if Js.falsy (gh !! "owner")
            then ([], inl (Js.mkError "Error" "You must supply an owner"))
            else if Js.falsy (gh !! "repo")
            then ([], inl (Js.mkError "Error" "You must supply an repo"))
            else
              let '(log_path, this_path) := default_path (gh !! "path") in
              let '(log_ref, this_ref) := default_ref (gh !! "ref") in
              let client :=
                mkOctokit [("accept", "application/vnd.github.v3+json");
                           ("user-agent", "blockstack-gaia-githubdriver")]
                          baseurl None in
              let authenticated :=
                mkOctokit (oc_headers client) (oc_baseUrl client)
                          (Some (Js.render authtype, Js.render token)) in
              ((log_path ++ log_ref
                  ++ [mkLog Info "about to authenticate to GitHub"])%list,
               inr (mkDriver authenticated None
                             (Js.render (gh !! "owner")) (Js.render (gh !! "repo"))
                             this_path this_ref))
        end
  end.

(** The error kinds of the driver contract, as the values the constructor
    throws for them. *)
Definition ConfigurationMissing : Js.Error :=
  Js.mkError "Error" "Configuration is missing for GitHub driver".

Definition UnsupportedAuthType : Js.Error := unsupported_auth.

Definition MissingCredential (authtype : string) : Js.Error :=
  Js.mkError "Error" ("Using " ++ authtype ++ " authentication but no token supplied").

Definition MissingIdentifier (field : string) : Js.Error :=
  Js.mkError "Error" ("You must supply an " ++ field).

(** ** Path validation and read URL *)

(** [GhDriver.isPathValid]: only double dots are disallowed. *)
Definition isPathValid (p : string) : bool := Js.indexOf p ".." =? -1.

Definition getReadURLPrefix (this : GhDriver) : string :=
  "https://raw.githubusercontent.com/" ++ owner this ++ "/" ++ repo this ++ "/"
  ++ ref this ++ "/".

(** ** The remote backend *)

Module Committer.
Record t := mk { name : string; email : string }.
End Committer.

(** The object [ghParams] handed to [repos.createFile]. *)
Module GhParams.
Record t := mk {
  owner : string;
  repo : string;
  path : string;
  message : string;
  branch : string;
  committer : Committer.t;
  content : string
}.

(** [ghParams.content = contents] *)
Definition set_content (p : t) (contents : string) : t :=
  mk (owner p) (repo p) (path p) (message p) (branch p) (committer p) contents.
End GhParams.

(** The object [params] handed to [repos.getContents]. *)
Module ListParams.
Record t := mk {
  owner : string;
  repo : string;
  path : string;
  ref : option string
}.
End ListParams.

(** A directory entry returned by the backend; the driver reads [name]
    only. *)
Module Entry.
Record t := mk { name : string; type : string; size : Z; sha : string }.
End Entry.

(** The response of a create-or-update call: [results.data.commit.sha]. *)
Record CreateFileResults := mkResults { commit_sha : string }.

(** How the promise returned by a backend call settles. *)
Inductive Reply (A : Type) :=
| Fulfilled (a : A)
| Failed (e : Js.Error).
Arguments Fulfilled {A} a.
Arguments Failed {A} e.

(** What the promise of a directory call fulfils with.  The client hands
    back a response object with the payload under [data], as the
    [results.data] read after a create-or-update call shows; a bare array
    of entries is what a stand-in for the client may hand back. *)
Inductive DirectoryResults :=
| ResponseObject (data : list Entry.t)
| BareArray (items : list Entry.t).

(** The remote peer behind the octokit client. *)
Record Backend := mkBackend {
  createFile : GhParams.t -> Reply CreateFileResults;
  getContents : ListParams.t -> Reply DirectoryResults
}.

Inductive BackendCall :=
| CreateFile (p : GhParams.t)
| GetContents (p : ListParams.t).

(** ** Promises and the record of a run *)

Inductive Settlement (A : Type) :=
| Pending
| Resolved (a : A)
| Rejected (e : Js.Error).
Arguments Pending {A}.
Arguments Resolved {A} a.
Arguments Rejected {A} e.

(** What one operation of the driver did, once nothing more can happen:
    how the promise it returned stands, the backend calls issued (oldest
    first), the log written, the rejections of inner promises that no
    handler observes, and the exception that escaped a listener, if any. *)
Record Run (A : Type) := mkRun {
  promise : Settlement A;
  calls : list BackendCall;
  logs : list LogEntry;
  unhandled : list Js.Error;
  uncaught : option Js.Error
}.
Arguments mkRun {A}.
Arguments promise {A}.
Arguments calls {A}.
Arguments logs {A}.
Arguments unhandled {A}.
Arguments uncaught {A}.

Section RunOps.
Context {A : Type}.

Definition start : Run A := mkRun Pending [] [] [] None.

(** [resolve(a)]: settles a pending promise, does nothing otherwise. *)
Definition resolve (a : A) (r : Run A) : Run A :=
  match promise r with
  | Pending => mkRun (Resolved a) (calls r) (logs r) (unhandled r) (uncaught r)
  | _ => r
  end.

(** [reject(e)]: settles a pending promise, does nothing otherwise. *)
Definition reject (e : Js.Error) (r : Run A) : Run A :=
  match promise r with
  | Pending => mkRun (Rejected e) (calls r) (logs r) (unhandled r) (uncaught r)
  | _ => r
  end.

Definition log (l : Level) (msg : string) (r : Run A) : Run A :=
  mkRun (promise r) (calls r) (logs r ++ [mkLog l msg]) (unhandled r) (uncaught r).

Definition call (c : BackendCall) (r : Run A) : Run A :=
  mkRun (promise r) (calls r ++ [c]) (logs r) (unhandled r) (uncaught r).

(** A promise rejects and nothing is chained on it. *)
Definition drop_rejection (e : Js.Error) (r : Run A) : Run A :=
  mkRun (promise r) (calls r) (logs r) (unhandled r ++ [e]) (uncaught r).

(** An exception leaves the listener that raised it. *)
Definition throw (e : Js.Error) (r : Run A) : Run A :=
  mkRun (promise r) (calls r) (logs r) (unhandled r) (Some e).
End RunOps.

(** ** Streams and [this] *)

Inductive StreamEvent :=
| Data (chunk : string)
| End_
| StreamError (err : Js.Error).

(** A [Readable], as the events it emits once listeners are attached.  It
    has the properties of a stream and no others. *)
Record Readable := mkReadable { emits : list StreamEvent }.

(** The value of [this] inside a function body.  An arrow function has the
    [this] of the method around it, the driver; a listener written with
    [function] is called by the emitter with the emitter as [this]. *)
Inductive This :=
| ThisDriver (d : GhDriver)
| ThisStream (s : Readable).

(** [this.oc]: a stream has no such property. *)
Definition this_oc (this : This) : option Octokit :=
  match this with
  | ThisDriver d => Some (oc d)
  | ThisStream _ => None
  end.

(** ** performWrite *)

Module Args.
Record t := mk {
  path : string;
  storageTopLevel : string;
  stream : Readable;
  contentLength : Z;
  contentType : string
}.
End Args.

(** Modelled from the spec: the [BadPathError] class imported from
    [../errors], which this file does not define; an error whose class
    name is BadPathError and whose message is the constructor's argument. *)
Definition BadPathError (msg : string) : Js.Error := Js.mkError "BadPathError" msg.

Definition contentPath (args : Args.t) : string :=
  Args.storageTopLevel args ++ "/" ++ Args.path args.

Definition downloadPath (this : GhDriver) (args : Args.t) : string :=
  getReadURLPrefix this ++ "/" ++ contentPath args.

Definition ghParams (this : GhDriver) (args : Args.t) : GhParams.t :=
  GhParams.mk (owner this) (repo this) (contentPath args) "TODO: add comment"
              (ref this) (Committer.mk "gaia" "someone@somewhere") "".

(** The state the listeners of one write share: the local [contents] and
    the record of the run. *)
Record WriteState := mkWriteState { contents : string; run : Run string }.

Section Listeners.
(** The names the listeners close over: the driver the method was called
    on, the remote peer its client talks to, and the arguments. *)
Variable driver : GhDriver.
Variable backend : Backend.
Variable args : Args.t.

(** The ['data'] listener. *)
Definition on_data (chunk : string) (st : WriteState) : WriteState :=
  mkWriteState (contents st ++ chunk) (run st).

(** The ['end'] listener, a [function]: [this] is whatever it is called
    on.  Reading [repos] off an absent [this.oc] raises a TypeError. *)
Definition on_end (this : This) (st : WriteState) : WriteState :=
  let params := GhParams.set_content (ghParams driver args) (contents st) in
  match this_oc this with
  | None =>
      mkWriteState (contents st)
        (throw (Js.mkError "TypeError" "Cannot read property 'repos' of undefined")
               (run st))
  | Some _ =>
      let r := call (CreateFile params) (run st) in
      match createFile backend params with
      | Fulfilled results =>
          mkWriteState (contents st)
            (resolve (downloadPath driver args)
               (log Debug ("stored " ++ contentPath args ++ " with commit "
                           ++ commit_sha results) r))
      | Failed e => mkWriteState (contents st) (drop_rejection e r)
      end
  end.

(** The ['error'] listener, an arrow function: [this] is the driver. *)
Definition on_error (err : Js.Error) (st : WriteState) : WriteState :=
  mkWriteState (contents st)
    (reject
       (Js.mkError "Error"
          ("GitHub storage driver failed: failed to write file"
           ++ contentPath args ++ " in bucket " ++ Js.render (bucket driver)
           ++ ": " ++ Js.toString err ++ "}"))
       (log Err ("failed to store " ++ contentPath args ++ " using GitHub driver")
            (run st))).

(** The stream [s] delivers one event to the listener attached for it;
    the emitter calls a listener with itself as [this]. *)
Definition deliver (s : Readable) (ev : StreamEvent) (st : WriteState)
  : WriteState :=
  match ev with
  | Data chunk => on_data chunk st
  | End_ => on_end (ThisStream s) st
  | StreamError err => on_error err st
  end.

(** The stream [s] emits its events in order.  An exception that leaves
    a listener is not caught by anything and ends the run. *)
Fixpoint emit (s : Readable) (events : list StreamEvent) (st : WriteState)
  : WriteState :=
  match events with
  | [] => st
  | ev :: rest =>
      let st' := deliver s ev st in
      match uncaught (run st') with
      | Some _ => st'
      | None => emit s rest st'
      end
  end.
End Listeners.

Definition performWrite (this : GhDriver) (backend : Backend) (args : Args.t)
  : Run string :=
  if negb (isPathValid (Args.path args))
  then reject (BadPathError "Invalid Path") start
  else run (emit this backend args (Args.stream args)
                 (emits (Args.stream args)) (mkWriteState "" start)).

(** The concatenation of the chunks of a stream, in order. *)
Definition joined (chunks : list string) : string :=
  fold_right String.append "" chunks.

(** ** listFiles *)

Record Listing := mkListing { entries : list string; page : option string }.

(** [results.forEach(result => filenames.push(result.name))] *)
Definition filenames (results : list Entry.t) : list string :=
  fold_left (fun names result => (names ++ [Entry.name result])%list) results [].

(** The [params] of the directory call. *)
Definition list_params (this : GhDriver) (storageTopLevel : string) : ListParams.t :=
  ListParams.mk (owner this) (repo this) (path this ++ "/" ++ storageTopLevel) None.

(** [results.forEach]: the items the method of an array iterates over; a
    response object is not an array and has no such method. *)
Definition forEach_items (results : DirectoryResults) : option (list Entry.t) :=
  match results with
  | BareArray items => Some items
  | ResponseObject _ => None
  end.

(** [listFiles]: the callback chained on the directory call runs when the
    call fulfils; an exception raised in it rejects the promise of the
    chain, on which nothing is attached.  The promise returned is the
    outer one, settled by [resolve] only. *)
Definition listFiles (this : GhDriver) (backend : Backend)
    (storageTopLevel : string) (page_arg : option string) : Run Listing :=
  let params := list_params this storageTopLevel in
  let r0 := if Js.falsy page_arg then start else log Debug "TODO: handle page" start in
  let r1 := call (GetContents params) r0 in
  match getContents backend params with
  | Fulfilled results =>
      match forEach_items results with
      | Some items => resolve (mkListing (filenames items) None) r1
      | None =>
          drop_rejection (Js.mkError "TypeError" "results.forEach is not a function")
                         r1
      end
  | Failed e => drop_rejection e r1
  end.

(** ** Sample inputs *)

Definition acme : GhDriver :=
  mkDriver (mkOctokit [] None (Some ("token", "t0k3n"))) None
           "acme" "site" "/" "main".

(** A backend on which every call succeeds: the client fulfils with its
    response objects. *)
Definition backend_ok (results : list Entry.t) : Backend :=
  mkBackend (fun _ => Fulfilled (mkResults "c0ffee"))
            (fun _ => Fulfilled (ResponseObject results)).

(** A backend on which every call fails with [e]. *)
Definition backend_down (e : Js.Error) : Backend :=
  mkBackend (fun _ => Failed e) (fun _ => Failed e).

Definition write_foo (s : Readable) : Args.t :=
  Args.mk "foo.txt" "store1" s 2 "text/plain".

Definition sample_config (gh : list (string * string)) : Config :=
  mkConfig (Some (list_to_map gh)) "bucket1".

(** A configuration for the bucket "tenant-7". *)
Definition tenant_config : Config :=
  mkConfig (Some (list_to_map [("authtype", "token"); ("token", "t0k3n");
                               ("owner", "acme"); ("repo", "site")]))
           "tenant-7".

(** * Properties *)

(** ** Substring search *)

Lemma append_nil (t : string) : "" ++ t = t.
Proof. reflexivity. Qed.

Lemma append_cons (c : ascii) (s t : string) : String c s ++ t = String c (s ++ t).
Proof. reflexivity. Qed.

Lemma prefix_iff (needle hay : string) :
  String.prefix needle hay = true <-> exists post : string, hay = needle ++ post.
Proof.
  revert hay. induction needle as [|a needle IH]; intros hay.
  - destruct hay; simpl; split; eauto.
  - destruct hay as [|b hay]; simpl.
    + split; [discriminate | intros [post H]; discriminate].
    + destruct (ascii_dec a b) as [->|Hab].
      * rewrite IH. split; intros [post H]; exists post;
          rewrite append_cons in *; congruence.
      * split; [discriminate | intros [post H]; rewrite append_cons in H; congruence].
Qed.

Lemma includes_here (needle hay : string) :
  String.prefix needle hay = true -> Js.includes hay needle.
Proof.
  intros H. apply prefix_iff in H as [post ->]. now exists "", post.
Qed.

Lemma includes_later (c : ascii) (needle hay : string) :
  Js.includes hay needle -> Js.includes (String c hay) needle.
Proof.
  intros (pre & post & ->). now exists (String c pre), post.
Qed.

Lemma includes_inv (c : ascii) (needle hay : string) :
  Js.includes (String c hay) needle ->
  String.prefix needle (String c hay) = true \/ Js.includes hay needle.
Proof.
  intros (pre & post & H). destruct pre as [|c' pre].
  - left. apply prefix_iff. exists post. exact H.
  - right. rewrite append_cons in H. injection H as _ ->. now exists pre, post.
Qed.

Lemma indexOf_from_nil (needle : string) (k : Z) :
  Js.indexOf_from needle "" k = if String.prefix needle "" then k else -1.
Proof. reflexivity. Qed.

Lemma indexOf_from_cons (needle : string) (c : ascii) (hay : string) (k : Z) :
  Js.indexOf_from needle (String c hay) k
  = if String.prefix needle (String c hay) then k
    else Js.indexOf_from needle hay (k + 1).
Proof. reflexivity. Qed.

Lemma indexOf_from_found (needle hay : string) (k : Z) :
  0 <= k -> Js.indexOf_from needle hay k <> -1 -> Js.includes hay needle.
Proof.
  revert k. induction hay as [|c hay IH]; intros k Hk;
    [rewrite indexOf_from_nil | rewrite indexOf_from_cons].
  - destruct (String.prefix needle "") eqn:E; [intros _; now apply includes_here |].
    intros H. now contradiction H.
  - destruct (String.prefix needle (String c hay)) eqn:E.
    + intros _. now apply includes_here.
    + intros H. apply includes_later, (IH (k + 1)); [lia | exact H].
Qed.

Lemma indexOf_from_missing (needle hay : string) (k : Z) :
  0 <= k -> Js.indexOf_from needle hay k = -1 -> ~ Js.includes hay needle.
Proof.
  revert k. induction hay as [|c hay IH]; intros k Hk;
    [rewrite indexOf_from_nil | rewrite indexOf_from_cons].
  - destruct (String.prefix needle "") eqn:E; [lia |].
    intros _ (pre & post & H).
    destruct pre; [| discriminate]. rewrite append_nil in H.
    assert (String.prefix needle "" = true) by (apply prefix_iff; eauto).
    congruence.
  - destruct (String.prefix needle (String c hay)) eqn:E; [lia |].
    intros H Hin. apply includes_inv in Hin as [Hp | Hin]; [congruence |].
    exact (IH (k + 1) ltac:(lia) H Hin).
Qed.

(** [indexOf] answers [-1] exactly on the strings without the needle. *)
Lemma indexOf_spec (hay needle : string) :
  Js.indexOf hay needle = -1 <-> ~ Js.includes hay needle.
Proof.
  unfold Js.indexOf. split.
  - apply indexOf_from_missing. lia.
  - intros Hn. destruct (Z.eq_dec (Js.indexOf_from needle hay 0) (-1)) as [E|E]; [exact E |].
    exfalso. apply Hn. eapply indexOf_from_found; [| exact E]. lia.
Qed.

Lemma isPathValid_false (p : string) :
  isPathValid p = false <-> Js.includes p "..".
Proof.
  unfold isPathValid. rewrite Z.eqb_neq. split.
  - apply indexOf_from_found. lia.
  - intros Hin E. now apply indexOf_spec in E.
Qed.

Lemma isPathValid_true (p : string) :
  isPathValid p = true <-> ~ Js.includes p "..".
Proof.
  rewrite <- isPathValid_false. destruct (isPathValid p); split; congruence.
Qed.

(** C7: [isPathValid] answers false exactly on the paths that contain
    ".." somewhere, and so true on every other path, among them the empty
    path and paths whose dots are all single.  It is a function of the
    path alone. *)
Theorem isPathValid_iff_double_dot :
  (forall p : string, isPathValid p = false <-> Js.includes p "..")
  /\ (forall p : string, isPathValid p = true <-> ~ Js.includes p "..")
  /\ isPathValid "" = true
  /\ isPathValid "./a.b/c.txt" = true.
Proof.
  split; [exact isPathValid_false |].
  split; [exact isPathValid_true |].
  split; reflexivity.
Qed.

(** ** Read URL prefix *)

(** C8: for every instance the read URL prefix is the raw-content host
    followed by the configured owner, repository and ref, each closed by
    a slash; so it is determined by these three (two instances that agree
    on them have the same prefix, whatever their client, bucket and
    path), it is defined for every instance, and for acme/site/main it is
    the raw-content URL with a final slash and no double slash after the
    scheme. *)
Theorem getReadURLPrefix_owner_repo_ref :
  (forall d : GhDriver,
      getReadURLPrefix d
      = "https://raw.githubusercontent.com/" ++ owner d ++ "/" ++ repo d ++ "/"
        ++ ref d ++ "/")
  /\ (forall (oc1 oc2 : Octokit) (b1 b2 : option string) (p1 p2 o r f : string),
      getReadURLPrefix (mkDriver oc1 b1 o r p1 f)
      = getReadURLPrefix (mkDriver oc2 b2 o r p2 f))
  /\ (forall (c : Octokit) (b : option string) (p : string),
         getReadURLPrefix (mkDriver c b "acme" "site" p "main")
         = "https://raw.githubusercontent.com/acme/site/main/")
  /\ ~ Js.includes "raw.githubusercontent.com/acme/site/main/" "//".
Proof.
  split; [reflexivity |]. split; [reflexivity |]. split; [reflexivity |].
  apply indexOf_spec. reflexivity.
Qed.

(** ** performWrite *)

Lemma append_empty_r (s : string) : s ++ "" = s.
Proof. induction s as [|c s IH]; [reflexivity |]. now rewrite append_cons, IH. Qed.

Lemma append_app (s t u : string) : (s ++ t) ++ u = s ++ t ++ u.
Proof.
  induction s as [|c s IH]; [reflexivity |]. now rewrite !append_cons, IH.
Qed.

(** Data events only grow [contents]. *)
Lemma emit_data this backend args s (chunks : list string) (rest : list StreamEvent)
    (st : WriteState) :
  uncaught (run st) = None ->
  emit this backend args s (map Data chunks ++ rest)%list st
  = emit this backend args s rest
      (mkWriteState (contents st ++ joined chunks) (run st)).
Proof.
  revert st. induction chunks as [|chunk chunks IH]; intros [c r] Hr; simpl in *.
  - now rewrite append_empty_r.
  - rewrite Hr, IH by exact Hr. simpl. now rewrite append_app.
Qed.

(** Without an invalid path, [performWrite] is the run of the listeners
    over the events of the stream. *)
Lemma performWrite_valid this backend args :
  isPathValid (Args.path args) = true ->
  performWrite this backend args
  = run (emit this backend args (Args.stream args) (emits (Args.stream args))
              (mkWriteState "" start)).
Proof. intros H. unfold performWrite. now rewrite H. Qed.

(** The ['end'] listener called on the stream raises before it reaches
    the client. *)
Lemma on_end_on_stream this backend args s (st : WriteState) :
  on_end this backend args (ThisStream s) st
  = mkWriteState (contents st)
      (throw (Js.mkError "TypeError" "Cannot read property 'repos' of undefined")
             (run st)).
Proof. reflexivity. Qed.

(** The ['end'] listener called on the driver issues one create-or-update
    call with the buffered content and, when the backend accepts it,
    resolves a pending promise with the precomputed URL. *)
Lemma on_end_on_driver this backend args d (st : WriteState) results :
  createFile backend (GhParams.set_content (ghParams this args) (contents st))
  = Fulfilled results ->
  promise (run st) = Pending ->
  let st' := on_end this backend args (ThisDriver d) st in
  promise (run st') = Resolved (downloadPath this args)
  /\ calls (run st')
     = (calls (run st)
        ++ [CreateFile (GhParams.set_content (ghParams this args) (contents st))])%list.
Proof.
  intros Hok Hp. unfold on_end. simpl. rewrite Hok. simpl.
  unfold resolve. simpl. now rewrite Hp.
Qed.

(** The ['error'] listener logs and rejects; it touches nothing else. *)
Lemma on_error_run this args err (st : WriteState) :
  calls (run (on_error this args err st)) = calls (run st)
  /\ uncaught (run (on_error this args err st)) = uncaught (run st)
  /\ unhandled (run (on_error this args err st)) = unhandled (run st)
  /\ (forall u, promise (run st) <> Resolved u ->
       promise (run (on_error this args err st)) <> Resolved u).
Proof.
  unfold on_error, reject, log. simpl.
  destruct (promise (run st)); simpl; repeat split; congruence.
Qed.

(** No listener called by the stream reaches the backend or resolves the
    promise. *)
Lemma deliver_never_calls this backend args s (ev : StreamEvent) (st : WriteState) :
  calls (run st) = [] -> (forall u, promise (run st) <> Resolved u) ->
  calls (run (deliver this backend args s ev st)) = []
  /\ forall u, promise (run (deliver this backend args s ev st)) <> Resolved u.
Proof.
  intros Hc Hp. destruct ev as [chunk | | err]; cbn [deliver].
  - now split.
  - rewrite on_end_on_stream. now split.
  - destruct (on_error_run this args err st) as (Ec & _ & _ & Ep).
    split; [congruence | intros u; now apply Ep].
Qed.

Lemma emit_never_calls this backend args s (events : list StreamEvent)
    (st : WriteState) :
  calls (run st) = [] -> (forall u, promise (run st) <> Resolved u) ->
  calls (run (emit this backend args s events st)) = []
  /\ forall u, promise (run (emit this backend args s events st)) <> Resolved u.
Proof.
  revert st. induction events as [|ev events IH]; intros st Hc Hp; cbn [emit].
  - now split.
  - destruct (deliver_never_calls this backend args s ev st Hc Hp) as [Hc' Hp'].
    destruct (uncaught (run (deliver this backend args s ev st)));
      [now split | now apply IH].
Qed.

Lemma performWrite_never_calls this backend args :
  calls (performWrite this backend args) = []
  /\ forall u, promise (performWrite this backend args) <> Resolved u.
Proof.
  unfold performWrite. destruct (isPathValid (Args.path args)); simpl.
  - apply emit_never_calls; [reflexivity | discriminate].
  - split; [reflexivity | discriminate].
Qed.

(** A stream that fails after some chunks: the write is rejected with
    the message built from the content path, the driver's [bucket]
    property and the stream's error, and the backend is not called. *)
Lemma performWrite_stream_error this backend p top (chunks : list string) err len ty :
  isPathValid p = true ->
  performWrite this backend
    (Args.mk p top (mkReadable (map Data chunks ++ [StreamError err])) len ty)
  = mkRun
      (Rejected
         (Js.mkError "Error"
            ("GitHub storage driver failed: failed to write file"
             ++ (top ++ "/" ++ p) ++ " in bucket " ++ Js.render (bucket this)
             ++ ": " ++ Js.toString err ++ "}")))
      []
      [mkLog Err ("failed to store " ++ (top ++ "/" ++ p) ++ " using GitHub driver")]
      [] None.
Proof.
  intros Hp. rewrite performWrite_valid by exact Hp.
  cbn [Args.stream emits]. rewrite emit_data by reflexivity. reflexivity.
Qed.

(** The instance the constructor returns has no [bucket]. *)
Lemma constructor_leaves_bucket_unset (config : Config) (d : GhDriver) :
  snd (constructor config) = inr d -> bucket d = None.
Proof.
  unfold constructor.
  destruct (ghConfig config) as [gh|]; [| discriminate].
  destruct (Nat.eqb (size gh) 0); [discriminate |].
  destruct (check_auth _ _); [discriminate |].
  destruct (Js.falsy (gh !! "owner")); [discriminate |].
  destruct (Js.falsy (gh !! "repo")); [discriminate |].
  destruct (default_path _), (default_ref _). simpl.
  intros H. injection H as <-. reflexivity.
Qed.

(** C5: a write whose path contains ".." is rejected with BadPathError;
    nothing is sent to the backend, nothing is logged and no listener
    runs. *)
Theorem performWrite_rejects_double_dot this backend args :
  Js.includes (Args.path args) ".." ->
  performWrite this backend args
  = mkRun (Rejected (BadPathError "Invalid Path")) [] [] [] None.
Proof.
  intros Hin. apply isPathValid_false in Hin.
  unfold performWrite. now rewrite Hin.
Qed.

Lemma performWrite_rejects_double_dot_witness :
  Js.includes "../etc/passwd" ".."
  /\ performWrite acme (backend_ok [])
       (Args.mk "../etc/passwd" "store1" (mkReadable [Data "root"; End_]) 4
                "text/plain")
     = mkRun (Rejected (BadPathError "Invalid Path")) [] [] [] None.
Proof.
  assert (H : Js.includes "../etc/passwd" "..") by now exists "", "/etc/passwd".
  split; [exact H |].
  apply performWrite_rejects_double_dot. exact H.
Defined.

(** C10: two writes that differ in nothing but the declared content
    length and content type have the same outcome: same settlement of the
    promise, same backend calls, same log. *)
Theorem performWrite_ignores_length_and_type this backend (a1 a2 : Args.t) :
  Args.path a1 = Args.path a2 ->
  Args.storageTopLevel a1 = Args.storageTopLevel a2 ->
  Args.stream a1 = Args.stream a2 ->
  performWrite this backend a1 = performWrite this backend a2.
Proof.
  destruct a1 as [p1 t1 s1 l1 c1], a2 as [p2 t2 s2 l2 c2]; simpl.
  intros -> -> ->.
  (* the listeners read the arguments through [contentPath], [downloadPath]
     and [ghParams] only, which project the path and the top level *)
  reflexivity.
Qed.

Lemma performWrite_ignores_length_and_type_witness :
  performWrite acme (backend_ok [])
    (Args.mk "foo.txt" "store1"
       (mkReadable [Data "abc"; StreamError (Js.mkError "Error" "EIO")]) 3 "text/plain")
  = performWrite acme (backend_ok [])
      (Args.mk "foo.txt" "store1"
         (mkReadable [Data "abc"; StreamError (Js.mkError "Error" "EIO")]) 4096
         "image/png").
Proof.
  apply performWrite_ignores_length_and_type; reflexivity.
Defined.

(** C2: on a stream that ends normally the ['end'] listener, called by
    the stream with the stream as [this], raises a TypeError while
    reading [this.oc.repos]: no create-or-update call is issued and the
    promise stays pending.  This holds for every driver, backend and
    sequence of chunks, here for the write of foo.txt under store1. *)
Theorem performWrite_end_raises_before_backend :
  forall (this : GhDriver) (backend : Backend) (chunks : list string),
    performWrite this backend (write_foo (mkReadable (map Data chunks ++ [End_])))
    = mkRun Pending [] [] []
        (Some (Js.mkError "TypeError" "Cannot read property 'repos' of undefined")).
Proof.
  intros this backend chunks.
  rewrite performWrite_valid by reflexivity.
  cbn [write_foo Args.stream emits].
  rewrite emit_data by reflexivity.
  cbn [emit deliver]. rewrite on_end_on_stream. reflexivity.
Qed.

(** C1: the write of foo.txt under store1 on a backend that accepts every
    call never resolves and never reaches the backend; the URL it
    precomputes is the prefix, a slash, and the content path, which is not
    the prefix followed by the content path. *)
Theorem performWrite_foo_url_unresolved :
  let args := write_foo (mkReadable [Data "hello"; End_]) in
  promise (performWrite acme (backend_ok []) args) = Pending
  /\ calls (performWrite acme (backend_ok []) args) = []
  /\ downloadPath acme args
     = "https://raw.githubusercontent.com/acme/site/main//store1/foo.txt"
  /\ downloadPath acme args <> getReadURLPrefix acme ++ "store1/foo.txt".
Proof.
  repeat split; try reflexivity.
  apply String.eqb_neq. reflexivity.
Qed.

(** C4: a driver constructed for bucket "bucket1" and a stream that fails
    after one chunk: the write is rejected and the backend is not called,
    but the message reads "in bucket undefined" and does not contain the
    bucket. *)
Theorem performWrite_stream_error_lacks_bucket :
  let config :=
    sample_config [("authtype", "token"); ("token", "t0k3n");
                   ("owner", "acme"); ("repo", "site")] in
  let args := write_foo (mkReadable [Data "he"; StreamError (Js.mkError "Error" "EIO")]) in
  let msg :=
    "GitHub storage driver failed: failed to write filestore1/foo.txt in bucket undefined: Error: EIO}" in
  exists d : GhDriver,
    snd (constructor config) = inr d
    /\ performWrite d (backend_ok []) args
       = mkRun (Rejected (Js.mkError "Error" msg)) []
           [mkLog Err "failed to store store1/foo.txt using GitHub driver"] [] None
    /\ ~ Js.includes msg (cfg_bucket config).
Proof.
  cbv zeta. eexists. split; [vm_compute; reflexivity |].
  split; [reflexivity |].
  apply indexOf_spec. reflexivity.
Qed.

(** ** listFiles *)

Lemma filenames_from (results : list Entry.t) (acc : list string) :
  fold_left (fun names result => (names ++ [Entry.name result])%list) results acc
  = (acc ++ map Entry.name results)%list.
Proof.
  revert acc. induction results as [|r results IH]; intros acc; simpl.
  - now rewrite app_nil_r.
  - rewrite IH. now rewrite <- app_assoc.
Qed.

(** The names are collected in the order of the backend's entries. *)
Lemma filenames_map (results : list Entry.t) :
  filenames results = map Entry.name results.
Proof. unfold filenames. now rewrite filenames_from. Qed.

(** What the callback of [listFiles] does with a bare array: the names of
    the entries in their order, a null page, whatever page was passed. *)
Lemma listFiles_on_array this backend (top : string)
    (page_arg : option string) (items : list Entry.t) :
  getContents backend (list_params this top) = Fulfilled (BareArray items) ->
  promise (listFiles this backend top page_arg)
  = Resolved (mkListing (map Entry.name items) None)
  /\ calls (listFiles this backend top page_arg)
     = [GetContents (list_params this top)].
Proof.
  intros Hok. unfold listFiles. rewrite Hok. cbn [forEach_items].
  rewrite filenames_map. destruct (Js.falsy page_arg); repeat split.
Qed.

(** C9: when the directory call succeeds, the client fulfils with a
    response object, and the callback of [listFiles] calls [forEach] on
    that object instead of on its [data]: a TypeError is raised inside
    the chain, which nothing observes, and the promise returned stays
    pending.  The one call made asks for the configured path, a slash and
    the top level.  So list("store1", null) on entries a.txt and b.txt
    does not resolve with those names. *)
Theorem listFiles_response_object_pending :
  (forall (this : GhDriver) (top : string) (page_arg : option string)
          (data : list Entry.t),
      promise (listFiles this (backend_ok data) top page_arg) = Pending
      /\ calls (listFiles this (backend_ok data) top page_arg)
         = [GetContents
              (ListParams.mk (owner this) (repo this) (path this ++ "/" ++ top) None)]
      /\ map Js.name (unhandled (listFiles this (backend_ok data) top page_arg))
         = ["TypeError"])
  /\ promise (listFiles acme
                (backend_ok [Entry.mk "a.txt" "file" 3 "aa11";
                             Entry.mk "b.txt" "file" 5 "bb22"])
                "store1" None)
     <> Resolved (mkListing ["a.txt"; "b.txt"] None).
Proof.
  split.
  - intros this top page_arg data. unfold listFiles.
    destruct (Js.falsy page_arg); repeat split.
  - discriminate.
Qed.

(** C3, as the claim states it, fails: on a backend whose directory call
    fails with "Not Found", the promise of [listFiles] is not rejected. *)
Lemma listFiles_backend_failure_counterexample :
  ~ exists err : Js.Error,
      promise (listFiles acme (backend_down (Js.mkError "HttpError" "Not Found"))
                 "store1" None)
      = Rejected err.
Proof. intros [err H]. discriminate H. Qed.

(** C3, amended: when the directory call fails, the promise [listFiles]
    returned is never settled, neither rejected nor resolved; the one
    backend call was issued and its rejection is left on the inner
    promise, which nothing observes. *)
Theorem listFiles_backend_failure_pending this backend (top : string)
    (page_arg : option string) (e : Js.Error) :
  getContents backend (list_params this top) = Failed e ->
  promise (listFiles this backend top page_arg) = Pending
  /\ calls (listFiles this backend top page_arg) = [GetContents (list_params this top)]
  /\ unhandled (listFiles this backend top page_arg) = [e]
  /\ uncaught (listFiles this backend top page_arg) = None.
Proof.
  intros Hfail. unfold listFiles. rewrite Hfail.
  destruct (Js.falsy page_arg); repeat split.
Qed.

Lemma listFiles_backend_failure_pending_witness :
  promise (listFiles acme (backend_down (Js.mkError "HttpError" "Not Found"))
             "store1" None)
  = Pending.
Proof.
  exact (proj1 (listFiles_backend_failure_pending acme (backend_down _) "store1" None
                  _ eq_refl)).
Defined.

(** ** Construction *)

Lemma falsy_spec (v : option string) :
  Js.falsy v = true <-> v = None \/ v = Some "".
Proof.
  destruct v as [s|]; simpl.
  - rewrite String.eqb_eq. split; [intros ->; now right | intros [H|H]; congruence].
  - split; [now left | reflexivity].
Qed.

Lemma check_auth_unsupported (authtype token : option string) :
  authtype <> Some "token" -> authtype <> Some "oauth" ->
  check_auth authtype token = Some UnsupportedAuthType.
Proof.
  intros Ht Ho. destruct authtype as [a|]; [| reflexivity]. simpl.
  destruct (String.eqb_spec a "token") as [->|_]; [congruence |].
  destruct (String.eqb_spec a "oauth") as [->|_]; [congruence | reflexivity].
Qed.

Lemma check_auth_supported (a : string) (token : option string) :
  a = "token" \/ a = "oauth" ->
  check_auth (Some a) token
  = if Js.falsy token then Some (MissingCredential a) else None.
Proof. intros [-> | ->]; simpl; destruct (Js.falsy token); reflexivity. Qed.

(** C6, as the claim states it, fails: a [ghConfig] without any property
    has no authtype, and construction fails with the error for a missing
    configuration, not with UnsupportedAuthType. *)
Lemma constructor_empty_ghConfig_counterexample :
  let gh : gmap string string := ∅ in
  gh !! "authtype" = None
  /\ snd (constructor (mkConfig (Some gh) "bucket1")) = inl ConfigurationMissing
  /\ snd (constructor (mkConfig (Some gh) "bucket1")) <> inl UnsupportedAuthType.
Proof.
  cbv zeta. split; [reflexivity |]. split; [reflexivity |].
  intros H. vm_compute in H. discriminate H.
Qed.

(** C6, amended: a configuration whose [ghConfig] is absent or has no
    property fails as a missing configuration.  With at least one
    property: an authtype that is absent or neither "token" nor "oauth"
    fails with UnsupportedAuthType; a supported authtype with an absent
    or empty token fails with MissingCredential; past that, an absent or
    empty owner fails with MissingIdentifier, and with an owner an absent
    or empty repo fails with MissingIdentifier; with all four present the
    constructor returns an instance with the configured owner and repo,
    whose path and ref are the configured ones, or "/" and "master" where
    absent or empty; the log is then the info note of each default taken,
    path first, followed by the info note that authentication is about to
    happen, and nothing else. *)
Theorem constructor_outcomes (config : Config) :
  (ghConfig config = None
   \/ (exists gh, ghConfig config = Some gh /\ size gh = 0%nat) ->
   constructor config = ([], inl ConfigurationMissing))
  /\ forall gh : gmap string string,
      ghConfig config = Some gh -> size gh <> 0%nat ->
      (gh !! "authtype" <> Some "token" -> gh !! "authtype" <> Some "oauth" ->
       constructor config = ([], inl UnsupportedAuthType))
      /\ forall a : string,
          gh !! "authtype" = Some a -> a = "token" \/ a = "oauth" ->
          (Js.falsy (gh !! "token") = true ->
           constructor config = ([], inl (MissingCredential a)))
          /\ (Js.falsy (gh !! "token") = false ->
              (Js.falsy (gh !! "owner") = true ->
               constructor config = ([], inl (MissingIdentifier "owner")))
              /\ (Js.falsy (gh !! "owner") = false ->
                  Js.falsy (gh !! "repo") = true ->
                  constructor config = ([], inl (MissingIdentifier "repo")))
              /\ (Js.falsy (gh !! "owner") = false ->
                  Js.falsy (gh !! "repo") = false ->
                  exists d : GhDriver,
                    snd (constructor config) = inr d
                    /\ owner d = Js.render (gh !! "owner")
                    /\ repo d = Js.render (gh !! "repo")
                    /\ path d = (if Js.falsy (gh !! "path") then "/"
                                 else Js.render (gh !! "path"))
                    /\ ref d = (if Js.falsy (gh !! "ref") then "master"
                                else Js.render (gh !! "ref"))
                    /\ fst (constructor config)
                       = ((if Js.falsy (gh !! "path")
                           then [mkLog Info "setting path to / as its not supplied in GitHub driver configuration"]
                           else [])
                          ++ (if Js.falsy (gh !! "ref")
                              then [mkLog Info
                                      ("setting ref to " ++ Js.dquote ++ "master"
                                       ++ Js.dquote
                                       ++ " as its not supplied in GitHub driver configuration")]
                              else [])
                          ++ [mkLog Info "about to authenticate to GitHub"])%list)).
Proof.
  unfold constructor. split.
  - intros [-> | (gh & -> & ->)]; reflexivity.
  - intros gh -> Hsize. apply Nat.eqb_neq in Hsize. rewrite Hsize.
    split.
    + intros Ht Ho. now rewrite check_auth_unsupported.
    + intros a Ha Hsup. rewrite Ha, check_auth_supported by exact Hsup.
      split; [intros ->; reflexivity |]. intros ->.
      split; [intros ->; reflexivity |].
      split; [intros -> ->; reflexivity |].
      intros -> ->. unfold default_path, default_ref.
      destruct (Js.falsy (gh !! "path")), (Js.falsy (gh !! "ref")); simpl;
        eexists; repeat split.
Qed.

Lemma constructor_outcomes_witness :
  let config :=
    sample_config [("authtype", "oauth"); ("token", "t0k3n");
                   ("owner", "acme"); ("repo", "site")] in
  exists d : GhDriver,
    snd (constructor config) = inr d /\ path d = "/" /\ ref d = "master".
Proof.
  cbv zeta.
  destruct (constructor_outcomes
              (sample_config [("authtype", "oauth"); ("token", "t0k3n");
                              ("owner", "acme"); ("repo", "site")]))
    as [_ H].
  destruct (H _ eq_refl ltac:(vm_compute; discriminate)) as [_ Hauth].
  destruct (Hauth "oauth" ltac:(vm_compute; reflexivity) ltac:(now right))
    as [_ Htoken].
  destruct (Htoken ltac:(vm_compute; reflexivity)) as (_ & _ & Hinst).
  destruct (Hinst ltac:(vm_compute; reflexivity) ltac:(vm_compute; reflexivity))
    as (d & Hd & _ & _ & Hpath & Href & _).
  exists d. split; [exact Hd |]. split; [exact Hpath | exact Href].
Defined.

(** * Further properties of the driver *)

(** ** What the listeners keep *)

(** A listener called by the stream rejects with a plain [Error] or leaves
    the promise as it is. *)
Lemma deliver_rejects_plain this backend args s (ev : StreamEvent) (st : WriteState) :
  (forall e, promise (run st) = Rejected e -> Js.name e = "Error") ->
  forall e, promise (run (deliver this backend args s ev st)) = Rejected e ->
            Js.name e = "Error".
Proof.
  intros Hst e. destruct ev as [chunk | | err]; cbn [deliver].
  - apply Hst.
  - rewrite on_end_on_stream. apply Hst.
  - unfold on_error, reject, log. cbn [run promise].
    destruct (promise (run st)) eqn:E; cbn [promise].
    + intros H. injection H as <-. reflexivity.
    + discriminate.
    + intros H. apply Hst. congruence.
Qed.

Lemma emit_rejects_plain this backend args s (events : list StreamEvent)
    (st : WriteState) :
  (forall e, promise (run st) = Rejected e -> Js.name e = "Error") ->
  forall e, promise (run (emit this backend args s events st)) = Rejected e ->
            Js.name e = "Error".
Proof.
  revert st. induction events as [|ev events IH]; intros st Hst; cbn [emit].
  - exact Hst.
  - pose proof (deliver_rejects_plain this backend args s ev st Hst) as Hst'.
    destruct (uncaught (run (deliver this backend args s ev st)));
      [exact Hst' | now apply IH].
Qed.

(** Once the promise is rejected, no later event changes it. *)
Lemma deliver_keeps_rejection this backend args s (ev : StreamEvent)
    (st : WriteState) (e : Js.Error) :
  promise (run st) = Rejected e ->
  promise (run (deliver this backend args s ev st)) = Rejected e.
Proof.
  intros Hst. destruct ev as [chunk | | err]; cbn [deliver].
  - exact Hst.
  - rewrite on_end_on_stream. exact Hst.
  - unfold on_error, reject, log. cbn [run promise]. now rewrite Hst.
Qed.

Lemma emit_keeps_rejection this backend args s (events : list StreamEvent)
    (st : WriteState) (e : Js.Error) :
  promise (run st) = Rejected e ->
  promise (run (emit this backend args s events st)) = Rejected e.
Proof.
  revert st. induction events as [|ev events IH]; intros st Hst; cbn [emit].
  - exact Hst.
  - pose proof (deliver_keeps_rejection this backend args s ev st e Hst) as Hst'.
    destruct (uncaught (run (deliver this backend args s ev st)));
      [exact Hst' | now apply IH].
Qed.

(** Chunks followed by a stream error, from the initial state: the
    promise is rejected with the message built for that error, whatever
    the stream emits afterwards. *)
Lemma emit_first_error this backend args s (chunks : list string) (err : Js.Error)
    (rest : list StreamEvent) :
  promise (run (emit this backend args s
                     (map Data chunks ++ StreamError err :: rest)%list
                     (mkWriteState "" start)))
  = Rejected
      (Js.mkError "Error"
         ("GitHub storage driver failed: failed to write file"
          ++ contentPath args ++ " in bucket " ++ Js.render (bucket this)
          ++ ": " ++ Js.toString err ++ "}")).
Proof.
  rewrite emit_data by reflexivity. cbn [emit deliver].
  change (uncaught (run (on_error this args err
                           (mkWriteState (contents (mkWriteState "" start)
                                          ++ joined chunks)
                                         (run (mkWriteState "" start))))))
    with (@None Js.Error).
  apply emit_keeps_rejection. reflexivity.
Qed.

Lemma emit_unhandled this backend args s (events : list StreamEvent)
    (st : WriteState) :
  unhandled (run (emit this backend args s events st)) = unhandled (run st).
Proof.
  revert st. induction events as [|ev events IH]; intros st; cbn [emit];
    [reflexivity |].
  assert (E : unhandled (run (deliver this backend args s ev st))
              = unhandled (run st)).
  { destruct ev as [chunk | | err]; cbn [deliver]; [reflexivity | reflexivity |].
    now destruct (on_error_run this args err st) as (_ & _ & Eu & _). }
  destruct (uncaught (run (deliver this backend args s ev st)));
    [exact E | now rewrite IH].
Qed.

(** ** performWrite, on every input *)

(** X1: whatever the arguments, the stream and the backend, [performWrite]
    issues no backend call, leaves no rejection of a backend promise
    behind, and never resolves the promise it returns. *)
Theorem performWrite_never_reaches_backend this backend args :
  calls (performWrite this backend args) = []
  /\ unhandled (performWrite this backend args) = []
  /\ forall url, promise (performWrite this backend args) <> Resolved url.
Proof.
  unfold performWrite. destruct (isPathValid (Args.path args)); cbn [negb].
  - destruct (emit_never_calls this backend args (Args.stream args)
                (emits (Args.stream args)) (mkWriteState "" start))
      as [Hc Hp]; [reflexivity | discriminate |].
    split; [exact Hc |]. split; [| exact Hp].
    now rewrite emit_unhandled.
  - repeat split. discriminate.
Qed.


(** X3: on a valid path, when the stream emits an error after any number
    of chunks, the write is rejected with the message built from the
    content path, the driver's [bucket] property and that error, and the
    backend is not called, whatever the stream emits afterwards (a second
    error, an end). *)
Theorem performWrite_first_stream_error this backend (p top : string)
    (chunks : list string) (err : Js.Error) (rest : list StreamEvent)
    (len : Z) (ty : string) :
  isPathValid p = true ->
  let r := performWrite this backend
             (Args.mk p top
                (mkReadable (map Data chunks ++ StreamError err :: rest)%list)
                len ty) in
  promise r
  = Rejected
      (Js.mkError "Error"
         ("GitHub storage driver failed: failed to write file"
          ++ (top ++ "/" ++ p) ++ " in bucket " ++ Js.render (bucket this)
          ++ ": " ++ Js.toString err ++ "}"))
  /\ calls r = [].
Proof.
  intros Hp r. split.
  - subst r. rewrite performWrite_valid by exact Hp.
    cbn [Args.stream emits]. now rewrite emit_first_error.
  - subst r. rewrite performWrite_valid by exact Hp.
    apply emit_never_calls; [reflexivity | discriminate].
Qed.

Lemma performWrite_first_stream_error_witness :
  let r := performWrite acme (backend_ok [])
             (Args.mk "a/b.txt" "store1"
                (mkReadable [Data "x"; StreamError (Js.mkError "Error" "EIO");
                             StreamError (Js.mkError "Error" "late"); End_])
                1 "text/plain") in
  promise r
  = Rejected
      (Js.mkError "Error"
         "GitHub storage driver failed: failed to write filestore1/a/b.txt in bucket undefined: Error: EIO}")
  /\ calls r = [].
Proof.
  exact (performWrite_first_stream_error acme (backend_ok []) "a/b.txt" "store1"
           ["x"] (Js.mkError "Error" "EIO")
           [StreamError (Js.mkError "Error" "late"); End_] 1 "text/plain" eq_refl).
Defined.

(** X4: on a valid path, a stream that emits chunks and then neither ends
    nor fails (among them the stream that emits nothing) leaves the
    promise pending: nothing is called, logged or raised. *)
Theorem performWrite_data_only_pending this backend (p top : string)
    (chunks : list string) (len : Z) (ty : string) :
  isPathValid p = true ->
  performWrite this backend (Args.mk p top (mkReadable (map Data chunks)) len ty)
  = mkRun Pending [] [] [] None.
Proof.
  intros Hp. rewrite performWrite_valid by exact Hp.
  cbn [Args.stream emits]. rewrite <- (app_nil_r (map Data chunks)).
  rewrite emit_data by reflexivity. reflexivity.
Qed.

Lemma performWrite_data_only_pending_witness :
  performWrite acme (backend_ok []) (Args.mk "foo.txt" "store1" (mkReadable []) 0 "")
  = mkRun Pending [] [] [] None
  /\ performWrite acme (backend_ok [])
       (Args.mk "foo.txt" "store1" (mkReadable [Data "a"; Data "b"]) 2 "")
     = mkRun Pending [] [] [] None.
Proof.
  split.
  - exact (performWrite_data_only_pending acme (backend_ok []) "foo.txt" "store1"
             [] 0 "" eq_refl).
  - exact (performWrite_data_only_pending acme (backend_ok []) "foo.txt" "store1"
             ["a"; "b"] 2 "" eq_refl).
Defined.

(** X5: on every valid path and under every top level, a stream that ends
    after its chunks makes the ['end'] listener raise a TypeError: the
    promise stays pending, with no backend call, no log entry and no
    rejection. *)
Theorem performWrite_end_of_stream this backend (p top : string)
    (chunks : list string) (len : Z) (ty : string) :
  isPathValid p = true ->
  exists e : Js.Error,
    Js.name e = "TypeError"
    /\ performWrite this backend
         (Args.mk p top (mkReadable (map Data chunks ++ [End_])) len ty)
       = mkRun Pending [] [] [] (Some e).
Proof.
  intros Hp. eexists. split; [| rewrite performWrite_valid by exact Hp;
    cbn [Args.stream emits]; rewrite emit_data by reflexivity;
    cbn [emit deliver]; rewrite on_end_on_stream; reflexivity].
  reflexivity.
Qed.

Lemma performWrite_end_of_stream_witness :
  exists e : Js.Error,
    Js.name e = "TypeError"
    /\ performWrite acme (backend_ok [])
         (Args.mk "docs/a.b/profile.json" "1abc"
            (mkReadable [Data "{"; Data "}"; End_]) 2 "application/json")
       = mkRun Pending [] [] [] (Some e).
Proof.
  exact (performWrite_end_of_stream acme (backend_ok []) "docs/a.b/profile.json"
           "1abc" ["{"; "}"] 2 "application/json" eq_refl).
Defined.

(** ** What the path check covers *)

Lemma includes_app_l (a x needle : string) :
  Js.includes a needle -> Js.includes (a ++ x) needle.
Proof.
  intros (pre & post & ->). exists pre, (post ++ x). now rewrite !append_app.
Qed.

Lemma includes_app_r (x b needle : string) :
  Js.includes b needle -> Js.includes (x ++ b) needle.
Proof.
  intros (pre & post & ->). exists (x ++ pre), post. now rewrite append_app.
Qed.

Lemma not_includes_empty (needle : string) :
  needle <> "" -> ~ Js.includes "" needle.
Proof.
  intros Hn (pre & post & H). destruct pre; [| discriminate].
  rewrite append_nil in H. destruct needle; [now apply Hn | discriminate].
Qed.

(** An occurrence of ".." in two strings joined by a slash lies in one of
    the two. *)
Lemma includes_join (a b : string) :
  Js.includes (a ++ "/" ++ b) ".." <-> Js.includes a ".." \/ Js.includes b "..".
Proof.
  split.
  - induction a as [|c a IH].
    + rewrite append_nil, append_cons, append_nil. intros H.
      apply includes_inv in H as [H | H]; [| now right].
      apply prefix_iff in H as [post H]. rewrite !append_cons in H. discriminate.
    + rewrite append_cons. intros H.
      apply includes_inv in H as [H | H].
      * apply prefix_iff in H as [post H]. rewrite !append_cons, append_nil in H.
        injection H as -> H. destruct a as [|c' a].
        -- repeat rewrite ?append_nil, ?append_cons in H. discriminate.
        -- repeat rewrite ?append_nil, ?append_cons in H. injection H as -> _.
           left. now exists "", a.
      * destruct (IH H) as [Ha | Hb]; [left; now apply includes_later | now right].
  - intros [Ha | Hb].
    + now apply includes_app_l.
    + now apply includes_app_r, includes_app_r.
Qed.

(** X6: the content path sent to the backend is free of ".." exactly
    when both the top level and the path are. *)
Theorem contentPath_valid_iff (args : Args.t) :
  isPathValid (contentPath args)
  = isPathValid (Args.storageTopLevel args) && isPathValid (Args.path args).
Proof.
  apply eq_true_iff_eq. unfold contentPath.
  rewrite andb_true_iff, !isPathValid_true, includes_join. tauto.
Qed.

(** X7: the check of [performWrite] covers the path only: with a valid
    path and a top level that contains "..", the content path contains
    ".." and the write is not rejected with BadPathError. *)
Theorem performWrite_top_level_unchecked this backend (args : Args.t) :
  isPathValid (Args.path args) = true ->
  Js.includes (Args.storageTopLevel args) ".." ->
  Js.includes (contentPath args) ".."
  /\ forall msg, promise (performWrite this backend args)
                 <> Rejected (BadPathError msg).
Proof.
  intros Hp Htop. split.
  - apply includes_join. now left.
  - intros msg H. rewrite performWrite_valid in H by exact Hp.
    apply emit_rejects_plain in H; [discriminate H | discriminate].
Qed.

Lemma performWrite_top_level_unchecked_witness :
  let args := Args.mk "passwd" "../../etc"
                (mkReadable [StreamError (Js.mkError "Error" "EIO")]) 0 "" in
  Js.includes (contentPath args) ".."
  /\ forall msg, promise (performWrite acme (backend_ok []) args)
                 <> Rejected (BadPathError msg).
Proof.
  apply performWrite_top_level_unchecked; [reflexivity |].
  now exists "", "/../etc".
Defined.

(** ** Construction, further *)

Lemma check_auth_None_iff (authtype token : option string) :
  check_auth authtype token = None
  <-> (authtype = Some "token" \/ authtype = Some "oauth")
      /\ Js.falsy token = false.
Proof.
  destruct authtype as [a|]; simpl.
  - destruct (String.eqb_spec a "token") as [->|Ht].
    + destruct (Js.falsy token); split; try discriminate; intuition congruence.
    + destruct (String.eqb_spec a "oauth") as [->|Ho].
      * destruct (Js.falsy token); split; try discriminate; intuition congruence.
      * split; [discriminate | intros [[H|H] _]; congruence].
  - split; [discriminate | intros [[H|H] _]; discriminate].
Qed.

Lemma falsy_false_render (v : option string) :
  Js.falsy v = false -> v = Some (Js.render v) /\ Js.render v <> "".
Proof.
  destruct v as [s|]; simpl; [| discriminate].
  intros H. apply String.eqb_neq in H. now split.
Qed.

(** The constructor, past its checks. *)
Lemma constructor_checked (config : Config) (gh : gmap string string) :
  ghConfig config = Some gh -> size gh <> 0%nat ->
  check_auth (gh !! "authtype") (gh !! "token") = None ->
  Js.falsy (gh !! "owner") = false -> Js.falsy (gh !! "repo") = false ->
  constructor config
  = ((fst (default_path (gh !! "path")) ++ fst (default_ref (gh !! "ref"))
        ++ [mkLog Info "about to authenticate to GitHub"])%list,
     inr (mkDriver
            (mkOctokit [("accept", "application/vnd.github.v3+json");
                        ("user-agent", "blockstack-gaia-githubdriver")]
                       (gh !! "baseurl")
                       (Some (Js.render (gh !! "authtype"), Js.render (gh !! "token"))))
            None (Js.render (gh !! "owner")) (Js.render (gh !! "repo"))
            (snd (default_path (gh !! "path"))) (snd (default_ref (gh !! "ref"))))).
Proof.
  intros Hgh Hsize Hauth Howner Hrepo. unfold constructor.
  apply Nat.eqb_neq in Hsize. rewrite Hgh, Hsize, Hauth, Howner, Hrepo.
  now destruct (default_path _), (default_ref _).
Qed.

(** A constructor that returned an instance went through every check. *)
Lemma constructor_inr_inv (config : Config) (d : GhDriver) :
  snd (constructor config) = inr d ->
  exists gh : gmap string string,
    ghConfig config = Some gh /\ size gh <> 0%nat
    /\ check_auth (gh !! "authtype") (gh !! "token") = None
    /\ Js.falsy (gh !! "owner") = false /\ Js.falsy (gh !! "repo") = false.
Proof.
  unfold constructor.
  destruct (ghConfig config) as [gh|]; [| discriminate].
  destruct (Nat.eqb_spec (size gh) 0) as [|Hsize]; [discriminate |].
  destruct (check_auth _ _) eqn:Hauth; [discriminate |].
  destruct (Js.falsy (gh !! "owner")) eqn:Howner; [discriminate |].
  destruct (Js.falsy (gh !! "repo")) eqn:Hrepo; [discriminate |].
  intros _. now exists gh.
Qed.

(** X8: the constructor returns an instance exactly when [ghConfig] has
    at least one property, authtype is "token" or "oauth", and token,
    owner and repo are present and not empty; path, ref and baseurl are
    never a reason to fail. *)
Theorem constructor_succeeds_iff (config : Config) :
  (exists d : GhDriver, snd (constructor config) = inr d)
  <-> exists gh : gmap string string,
        ghConfig config = Some gh /\ size gh <> 0%nat
        /\ (gh !! "authtype" = Some "token" \/ gh !! "authtype" = Some "oauth")
        /\ Js.falsy (gh !! "token") = false
        /\ Js.falsy (gh !! "owner") = false
        /\ Js.falsy (gh !! "repo") = false.
Proof.
  split.
  - intros [d Hd]. apply constructor_inr_inv in Hd as (gh & Hgh & Hs & Ha & Ho & Hr).
    apply check_auth_None_iff in Ha as [Ha Ht]. now exists gh.
  - intros (gh & Hgh & Hs & Ha & Ht & Ho & Hr).
    assert (Hc : check_auth (gh !! "authtype") (gh !! "token") = None)
      by (apply check_auth_None_iff; now split).
    eexists. rewrite (constructor_checked config gh Hgh Hs Hc Ho Hr). reflexivity.
Qed.

(** X9: every instance the constructor returns has a non-empty owner,
    repo, path and ref, and a client authenticated with type "token" or
    "oauth" and a non-empty token, created with the configured baseurl
    (absent when not configured) and the fixed accept and user-agent
    headers. *)
Theorem constructor_instance_invariant (config : Config) (d : GhDriver) :
  snd (constructor config) = inr d ->
  owner d <> "" /\ repo d <> "" /\ path d <> "" /\ ref d <> ""
  /\ (exists a t : string,
         oc_auth (oc d) = Some (a, t) /\ (a = "token" \/ a = "oauth") /\ t <> "")
  /\ (exists gh, ghConfig config = Some gh /\ oc_baseUrl (oc d) = gh !! "baseurl")
  /\ oc_headers (oc d)
     = [("accept", "application/vnd.github.v3+json");
        ("user-agent", "blockstack-gaia-githubdriver")].
Proof.
  intros Hd.
  destruct (constructor_inr_inv config d Hd) as (gh & Hgh & Hs & Ha & Ho & Hr).
  rewrite (constructor_checked config gh Hgh Hs Ha Ho Hr) in Hd.
  injection Hd as <-. cbn [owner repo path ref oc oc_auth oc_baseUrl oc_headers].
  apply check_auth_None_iff in Ha as [Ha Ht].
  apply falsy_false_render in Ho as [_ Ho], Hr as [_ Hr], Ht as [_ Ht].
  repeat split; try assumption.
  - unfold default_path. destruct (Js.falsy (gh !! "path")) eqn:E; cbn [snd].
    + discriminate.
    + now apply falsy_false_render in E.
  - unfold default_ref. destruct (Js.falsy (gh !! "ref")) eqn:E; cbn [snd].
    + discriminate.
    + now apply falsy_false_render in E.
  - exists (Js.render (gh !! "authtype")), (Js.render (gh !! "token")).
    split; [reflexivity |]. split; [| exact Ht].
    destruct Ha as [-> | ->]; [now left | now right].
  - now exists gh.
Qed.

Lemma constructor_instance_invariant_witness :
  exists d : GhDriver,
    snd (constructor (sample_config [("authtype", "token"); ("token", "t0k3n");
                                     ("owner", "acme"); ("repo", "site");
                                     ("ref", "")]))
    = inr d
    /\ owner d <> "" /\ repo d <> "" /\ path d <> "" /\ ref d <> "".
Proof.
  eexists. split; [vm_compute; reflexivity |].
  destruct (constructor_instance_invariant
              (sample_config [("authtype", "token"); ("token", "t0k3n");
                              ("owner", "acme"); ("repo", "site"); ("ref", "")])
              _ ltac:(vm_compute; reflexivity))
    as (Ho & Hr & Hp & Hf & _).
  repeat split; assumption.
Defined.

(** X10: a construction that fails has logged nothing; one that succeeds
    has logged at info level only, at most two notes about defaults and
    then the note that authentication is about to happen. *)
Theorem constructor_log_shape (config : Config) :
  match snd (constructor config) with
  | inl _ => fst (constructor config) = []
  | inr _ =>
      exists notes : list LogEntry,
        fst (constructor config)
        = (notes ++ [mkLog Info "about to authenticate to GitHub"])%list
        /\ (length notes <= 2)%nat
        /\ Forall (fun entry => level entry = Info) notes
  end.
Proof.
  destruct (snd (constructor config)) as [e|d] eqn:Hd.
  - revert Hd. unfold constructor.
    destruct (ghConfig config) as [gh|]; [| reflexivity].
    destruct (Nat.eqb (size gh) 0); [reflexivity |].
    destruct (check_auth _ _); [reflexivity |].
    destruct (Js.falsy (gh !! "owner")); [reflexivity |].
    destruct (Js.falsy (gh !! "repo")); [reflexivity |].
    destruct (default_path _), (default_ref _). discriminate.
  - destruct (constructor_inr_inv config d Hd) as (gh & Hgh & Hs & Ha & Ho & Hr).
    rewrite (constructor_checked config gh Hgh Hs Ha Ho Hr). cbn [fst].
    exists (fst (default_path (gh !! "path")) ++ fst (default_ref (gh !! "ref")))%list.
    split; [now rewrite <- app_assoc |].
    unfold default_path, default_ref.
    destruct (Js.falsy (gh !! "path")), (Js.falsy (gh !! "ref")); cbn;
      split; try lia; repeat constructor.
Qed.

(** X11: the constructor does not read [config.bucket]: the instance has
    no [bucket], so for every constructed driver the diagnostic of a
    failed stream reads "in bucket undefined", whatever bucket was
    configured. *)
Theorem constructed_driver_has_no_bucket (config : Config) (d : GhDriver)
    backend (p top : string) (chunks : list string) (err : Js.Error)
    (rest : list StreamEvent) (len : Z) (ty : string) :
  snd (constructor config) = inr d ->
  isPathValid p = true ->
  bucket d = None
  /\ promise (performWrite d backend
                (Args.mk p top
                   (mkReadable (map Data chunks ++ StreamError err :: rest)%list)
                   len ty))
     = Rejected
         (Js.mkError "Error"
            ("GitHub storage driver failed: failed to write file"
             ++ (top ++ "/" ++ p) ++ " in bucket undefined: "
             ++ Js.toString err ++ "}")).
Proof.
  intros Hd Hp. pose proof (constructor_leaves_bucket_unset config d Hd) as Hb.
  split; [exact Hb |].
  rewrite performWrite_valid by exact Hp. cbn [Args.stream emits].
  rewrite emit_first_error, Hb. reflexivity.
Qed.

Lemma constructed_driver_has_no_bucket_witness :
  cfg_bucket tenant_config = "tenant-7"
  /\ exists d : GhDriver,
       snd (constructor tenant_config) = inr d /\ bucket d = None.
Proof.
  split; [reflexivity |].
  eexists. split; [vm_compute; reflexivity |].
  exact (proj1 (constructed_driver_has_no_bucket tenant_config _ (backend_ok [])
                  "foo.txt" "store1" [] (Js.mkError "Error" "EIO") [] 0 ""
                  ltac:(vm_compute; reflexivity) eq_refl)).
Defined.

(** ** listFiles, further *)

(** X12: whatever the backend answers, [listFiles] issues exactly one
    directory call, for the configured path, a slash and the top level,
    raises nothing and never rejects the promise it returns. *)
Theorem listFiles_one_call_no_rejection this backend (top : string)
    (page_arg : option string) :
  calls (listFiles this backend top page_arg) = [GetContents (list_params this top)]
  /\ uncaught (listFiles this backend top page_arg) = None
  /\ forall e, promise (listFiles this backend top page_arg) <> Rejected e.
Proof.
  unfold listFiles.
  destruct (getContents backend (list_params this top)) as [[data | items] | e],
    (Js.falsy page_arg); repeat split; discriminate.
Qed.

(** X13: the page argument changes nothing but the log: the promise, the
    backend call and the unobserved rejections are the same for any two
    page arguments, and the log is one debug entry for a non-empty page
    and empty otherwise. *)
Theorem listFiles_page_only_logged this backend (top : string)
    (page1 page2 : option string) :
  promise (listFiles this backend top page1) = promise (listFiles this backend top page2)
  /\ calls (listFiles this backend top page1) = calls (listFiles this backend top page2)
  /\ unhandled (listFiles this backend top page1)
     = unhandled (listFiles this backend top page2)
  /\ logs (listFiles this backend top page1)
     = if Js.falsy page1 then [] else [mkLog Debug "TODO: handle page"].
Proof.
  unfold listFiles.
  destruct (getContents backend (list_params this top)) as [[data | items] | e],
    (Js.falsy page1), (Js.falsy page2); repeat split.
Qed.

Lemma append_cancel_l (p x y : string) : p ++ x = p ++ y -> x = y.
Proof.
  induction p as [|c p IH]; [now rewrite !append_nil |].
  rewrite !append_cons. intros H. injection H as H. now apply IH.
Qed.

Lemma append_cancel_slash (s t : string) : s ++ "/" = t ++ "/" -> s = t.
Proof.
  revert t. induction s as [|c s IH]; intros [|c' t] H;
    repeat rewrite ?append_nil, ?append_cons in H.
  - reflexivity.
  - injection H as _ H. destruct t; discriminate H.
  - injection H as _ H. destruct s; discriminate H.
  - injection H as -> H. f_equal. now apply IH.
Qed.

(** X14: two drivers that differ in ref only list in the same way,
    although their read URL prefixes differ: the directory call is not
    tied to the ref that writes target and read URLs are built from. *)
Theorem listFiles_ignores_ref (c : Octokit) (b : option string)
    (o r p ref1 ref2 : string) backend (top : string) (page_arg : option string) :
  ref1 <> ref2 ->
  listFiles (mkDriver c b o r p ref1) backend top page_arg
  = listFiles (mkDriver c b o r p ref2) backend top page_arg
  /\ getReadURLPrefix (mkDriver c b o r p ref1)
     <> getReadURLPrefix (mkDriver c b o r p ref2).
Proof.
  intros Hne. split; [reflexivity |].
  unfold getReadURLPrefix. cbn [owner repo ref]. intros H.
  do 5 apply append_cancel_l in H.
  now apply append_cancel_slash in H.
Qed.

Lemma listFiles_ignores_ref_witness :
  listFiles (mkDriver (oc acme) None "acme" "site" "/" "main") (backend_ok [])
            "store1" None
  = listFiles (mkDriver (oc acme) None "acme" "site" "/" "gh-pages") (backend_ok [])
              "store1" None
  /\ getReadURLPrefix (mkDriver (oc acme) None "acme" "site" "/" "main")
     <> getReadURLPrefix (mkDriver (oc acme) None "acme" "site" "/" "gh-pages").
Proof.
  apply listFiles_ignores_ref. discriminate.
Defined.

(** X15: what the defaults of the constructor give the operations: with
    no path configured the directory call asks for "//" followed by the
    top level, and with no ref configured the read URL prefix ends in
    "/master/". *)
Theorem constructor_defaults_in_use (config : Config) (gh : gmap string string)
    (d : GhDriver) backend (top : string) (page_arg : option string) :
  ghConfig config = Some gh ->
  snd (constructor config) = inr d ->
  (Js.falsy (gh !! "path") = true ->
   calls (listFiles d backend top page_arg)
   = [GetContents (ListParams.mk (owner d) (repo d) ("//" ++ top) None)])
  /\ (Js.falsy (gh !! "ref") = true ->
      getReadURLPrefix d
      = "https://raw.githubusercontent.com/" ++ owner d ++ "/" ++ repo d
        ++ "/master/").
Proof.
  intros Hgh Hd.
  destruct (constructor_inr_inv config d Hd) as (gh' & Hgh' & Hs & Ha & Ho & Hr).
  assert (gh' = gh) as -> by congruence.
  rewrite (constructor_checked config gh Hgh Hs Ha Ho Hr) in Hd.
  injection Hd as <-. split; intros E.
  - unfold listFiles, list_params, default_path. rewrite E. cbn [owner repo path snd].
    destruct (getContents backend _) as [[data | items] | e], (Js.falsy page_arg);
      reflexivity.
  - unfold getReadURLPrefix, default_ref. rewrite E. reflexivity.
Qed.

Lemma constructor_defaults_in_use_witness :
  exists d : GhDriver,
    snd (constructor (sample_config [("authtype", "token"); ("token", "t0k3n");
                                     ("owner", "acme"); ("repo", "site")]))
    = inr d
    /\ calls (listFiles d (backend_ok []) "store1" None)
       = [GetContents (ListParams.mk "acme" "site" "//store1" None)]
    /\ getReadURLPrefix d = "https://raw.githubusercontent.com/acme/site/master/".
Proof.
  eexists. split; [vm_compute; reflexivity |].
  destruct (constructor_defaults_in_use
              (sample_config [("authtype", "token"); ("token", "t0k3n");
                              ("owner", "acme"); ("repo", "site")])
              _ _ (backend_ok []) "store1" None eq_refl
              ltac:(vm_compute; reflexivity))
    as [Hl Hu].
  split; [exact (Hl eq_refl) | exact (Hu eq_refl)].
Defined.

(** ** The log and the URL of a write *)

Lemma deliver_logs this backend args s (ev : StreamEvent) (st : WriteState) :
  logs (run (deliver this backend args s ev st)) = logs (run st)
  \/ logs (run (deliver this backend args s ev st))
     = (logs (run st)
        ++ [mkLog Err ("failed to store " ++ contentPath args
                       ++ " using GitHub driver")])%list.
Proof.
  destruct ev as [chunk | | err]; cbn [deliver].
  - now left.
  - rewrite on_end_on_stream. now left.
  - right. unfold on_error, reject, log. cbn [run promise].
    now destruct (promise (run st)).
Qed.

Lemma emit_logs this backend args s (events : list StreamEvent) (st : WriteState) :
  let line := mkLog Err ("failed to store " ++ contentPath args
                         ++ " using GitHub driver") in
  Forall (fun entry => entry = line) (logs (run st)) ->
  Forall (fun entry => entry = line)
         (logs (run (emit this backend args s events st))).
Proof.
  intros line. revert st.
  induction events as [|ev events IH]; intros st Hst; cbn [emit]; [exact Hst |].
  assert (Hst' : Forall (fun entry => entry = line)
                        (logs (run (deliver this backend args s ev st)))).
  { destruct (deliver_logs this backend args s ev st) as [-> | ->]; [exact Hst |].
    apply Forall_app. split; [exact Hst | now constructor]. }
  destruct (uncaught (run (deliver this backend args s ev st)));
    [exact Hst' | now apply IH].
Qed.

(** X16: whatever happens, every entry [performWrite] logs is the
    error-level line that names the content path that failed to store;
    nothing is logged at info or debug level, and nothing about a stored
    file. *)
Theorem performWrite_logs_failures_only this backend (args : Args.t) :
  Forall (fun entry =>
            entry = mkLog Err ("failed to store " ++ contentPath args
                               ++ " using GitHub driver"))
         (logs (performWrite this backend args)).
Proof.
  unfold performWrite. destruct (isPathValid (Args.path args)); cbn [negb].
  - apply emit_logs. constructor.
  - constructor.
Qed.

Lemma length_append (s t : string) :
  String.length (s ++ t) = (String.length s + String.length t)%nat.
Proof.
  induction s as [|c s IH]; [reflexivity |].
  rewrite append_cons. cbn [String.length]. now rewrite IH.
Qed.

(** X17: for every driver and every write, the URL [performWrite]
    precomputes has a double slash in front of the content path, and it
    is never the read URL prefix followed directly by the content path. *)
Theorem downloadPath_double_slash (this : GhDriver) (args : Args.t) :
  Js.includes (downloadPath this args) ("//" ++ contentPath args)
  /\ downloadPath this args <> getReadURLPrefix this ++ contentPath args.
Proof.
  unfold downloadPath. split.
  - unfold getReadURLPrefix.
    exists ("https://raw.githubusercontent.com/" ++ owner this ++ "/" ++ repo this
            ++ "/" ++ ref this), "".
    rewrite append_empty_r. now rewrite !append_app.
  - intros H. apply append_cancel_l, (f_equal String.length) in H.
    rewrite length_append in H. cbn [String.length] in H. lia.
Qed.
